(** * The character browser of ng-practical-test

    A shallow embedding of [src/app/pages/characters/characters.component.ts]:
    the component's fields, the reactive pipeline that [ngOnInit] builds out
    of RxJS operators, and the callbacks of its subscriber.

    The component runs on one event loop.  Every callback runs to completion
    before the next one starts, so the component is a state machine whose
    transitions are the callbacks the browser and the libraries invoke:
    an edit of the search box, the debounce timer, a page selected in the
    paginator, the outcome of an HTTP request, and the destruction of the
    component.  The operators (RxJS 7) keep private state between callbacks;
    that state is the [Pipeline] record below. *)

From Stdlib Require Import Ascii.
From stdpp Require Import gmap strings pretty list.

Open Scope Z_scope.

(** ** Data model (lines 16-42) *)

Module Character.
Record t := make
  { id : Z; name : string; status : string; species : string; gender : string }.
End Character.

Module Info.
Record t := make
  { count : Z; pages : Z; next : option string; prev : option string }.
End Info.

Module ApiResponse.
Record t := make { info : Info.t; results : list Character.t }.
End ApiResponse.

Inductive CharacterState := LOADING | LOADED | NO_DATA_FOUND | ERROR.

(** What [HttpClient] raises for a failed request.  Only [status] is read by
    the component: 404, another HTTP status, or 0 for a transport failure.
    The object has neither a [results] nor an [info] property. *)
Module HttpErrorResponse.
Record t := make { status : Z }.
End HttpErrorResponse.

(** The outcome of one [http.get]. *)
Inductive Outcome :=
| Success (r : ApiResponse.t)
| Failure (err : HttpErrorResponse.t).

(** A value travelling down [loadData$] is typed [ApiResponse], but
    [catchError] on line 160 re-emits the error object with [of(err)], so at
    run time it is one of the two. *)
Inductive Emission :=
| Payload (r : ApiResponse.t)
| ErrorObject (err : HttpErrorResponse.t).

(** JavaScript property reads on an emission; [None] is [undefined]. *)
Definition get_results (v : Emission) : option (list Character.t) :=
  match v with
  | Payload r => Some (ApiResponse.results r)
  | ErrorObject _ => None
  end.

Definition get_info (v : Emission) : option Info.t :=
  match v with
  | Payload r => Some (ApiResponse.info r)
  | ErrorObject _ => None
  end.

(** What an observable delivers to its subscriber. *)
Inductive Notification :=
| Next (v : Emission)
| Error (err : HttpErrorResponse.t).

(** [HttpParams]: an immutable map from parameter names to values;
    [set] replaces the value of a name. *)
Abbreviation HttpParams := (gmap string string).

Definition HttpParams_set (k v : string) (p : HttpParams) : HttpParams :=
  <[k := v]> p.

(** ** [Number.prototype.toString] on integers

    A control holds a Number, that is a double.  An integer [x] stands for
    the Number value of [x]: itself up to [2^53], and above that the double
    nearest to it, ties going to the even significand.

    [Number::toString] (ECMAScript, radix 10) takes the integers [n], [k],
    [s] with [10^(k-1) ≤ s < 10^k] whose [s * 10^(n-k)] has the Number value
    at hand, [k] being as small as possible and [s * 10^(n-k)] as close as
    possible; it prints the digits of [s] followed by [n - k] zeros when
    [n ≤ 21], and [d.ddd] followed by [e+] and [n - 1] otherwise.  Below
    [2^53] neighbouring doubles are at most 1 apart, so the only integer
    with the Number value [x] is [x], and what is printed is the decimal
    numeral of [x]. *)

(** [Number.isSafeInteger]. *)
Definition is_safe_integer (n : Z) : Prop := - (2 ^ 53 - 1) ≤ n ≤ 2 ^ 53 - 1.

(** The Number value of an integer [x ≥ 2^53], as significand and exponent
    [(m, e)] with [2^52 ≤ m < 2^53], standing for [m * 2^e]; [None] when the
    value is [Infinity]. *)
Definition Number_value (x : Z) : option (Z * Z) :=
  let e := Z.log2 x - 52 in
  let m0 := x / 2 ^ e in
  let r := x mod 2 ^ e in
  let half := 2 ^ (e - 1) in
  let m1 := if (half <? r) || ((r =? half) && Z.odd m0) then m0 + 1 else m0 in
  let '(m, e') := if m1 =? 2 ^ 53 then (2 ^ 52, e + 1) else (m1, e) in
  if 971 <? e' then None else Some (m, e').

(** Whether the Number value of the integer [y] is [m * 2^e]: [y] lies
    between the midpoints to the neighbouring doubles, the midpoints
    included when [m] is even.  The double below a power of two is half as
    far away.  Everything is scaled by 4 to stay in the integers. *)
Definition rounds_to (m e y : Z) : bool :=
  let lo := 4 * m * 2 ^ e - (if m =? 2 ^ 52 then 2 ^ e else 2 ^ (e + 1)) in
  let hi := 4 * m * 2 ^ e + 2 ^ (e + 1) in
  if Z.even m then (lo <=? 4 * y) && (4 * y <=? hi)
  else (lo <? 4 * y) && (4 * y <? hi).

(** The [s] of [k] digits for which [s * 10^(n-k)] has the Number value
    [m * 2^e], each paired with [n]: only the two multiples of [10^(n-k)]
    around the value can qualify. *)
Definition candidates (m e k n : Z) : list (Z * Z) :=
  let x := m * 2 ^ e in
  let j := n - k in
  if j <? 0 then []
  else
    (λ s, (s, n)) <$>
    filter (λ s, 10 ^ (k - 1) ≤ s ∧ s < 10 ^ k ∧
                 rounds_to m e (s * 10 ^ j) = true)
           [x / 10 ^ j; x / 10 ^ j + 1].

(** Among candidates of [k] digits, the one closest to [m * 2^e]. *)
Definition closest (m e k : Z) (cs : list (Z * Z)) : option (Z * Z) :=
  let x := m * 2 ^ e in
  let dist (c : Z * Z) := Z.abs (c.1 * 10 ^ (c.2 - k) - x) in
  foldr (λ c best,
           match best with
           | Some b => if dist b <? dist c then Some b else Some c
           | None => Some c
           end) None cs.

(** The first [k] of [ks] that has a candidate, with the closest [s] and its
    [n]; [d] is the number of digits of [m * 2^e], and [n] is [d] or, when
    the candidate is the power of ten just above, [d + 1]. *)
Fixpoint shortest (m e d : Z) (ks : list Z) : option (Z * Z * Z) :=
  match ks with
  | [] => None
  | k :: ks' =>
      match closest m e k (candidates m e k d ++ candidates m e k (d + 1)) with
      | Some (s, n) => Some (s, k, n)
      | None => shortest m e d ks'
      end
  end.

Fixpoint zeros (n : nat) : string :=
  match n with O => "" | S n' => "0" +:+ zeros n' end.

(** The printed form of [s * 10^(n-k)], for [n ≥ k]. *)
Definition render (s k n : Z) : string :=
  if n <=? 21 then pretty s +:+ zeros (Z.to_nat (n - k))
  else
    match pretty s with
    | String a "" => String a ("e+" +:+ pretty (n - 1))
    | String a rest => String a ("." +:+ rest +:+ "e+" +:+ pretty (n - 1))
    | "" => ""
    end.

(** On a positive integer.  Seventeen digits tell any double from its
    neighbours, so the search over [k] from 1 to 17 finds an [s]. *)
Definition Number_toString_pos (x : Z) : string :=
  if x <? 2 ^ 53 then pretty x
  else
    match Number_value x with
    | None => "Infinity"
    | Some (m, e) =>
        let d := Z.of_nat (String.length (pretty (m * 2 ^ e))) in
        match shortest m e d (seqZ 1 17) with
        | Some (s, k, n) => render s k n
        | None => pretty (m * 2 ^ e)
        end
    end.

Definition Number_toString (n : Z) : string :=
  match n with
  | 0 => "0"
  | Zpos _ => Number_toString_pos n
  | Zneg p => "-" +:+ Number_toString_pos (Zpos p)
  end.

(** *** Decimal numerals

    What it is for a string to be the decimal numeral of an integer, read
    off the string alone: the digits of the integer, most significant
    first, without a leading zero, after a minus sign below zero. *)
Definition digit_value (a : ascii) : option Z :=
  let code := Z.of_N (N_of_ascii a) in
  if decide (48 ≤ code ≤ 57) then Some (code - 48) else None.

(** The value of a string of digits after the digits of value [acc]. *)
Fixpoint digits_value (acc : Z) (s : string) : option Z :=
  match s with
  | "" => Some acc
  | String a s' =>
      match digit_value a with
      | Some d => digits_value (10 * acc + d) s'
      | None => None
      end
  end.

(** The integer a string is the decimal numeral of, if any. *)
Definition decimal_value (s : string) : option Z :=
  match s with
  | "" => None
  | String a t =>
      if decide (a = "-"%char) then
        match t with
        | "" => None
        | String b _ =>
            if decide (b = "0"%char) then None
            else Z.opp <$> digits_value 0 t
        end
      else if decide (a = "0"%char) then
        (if decide (t = "") then Some 0 else None)
      else digits_value 0 s
  end.

(** ** Operator state

    - [startPage]: the argument of [startWith] on line 75.  It is evaluated
      once, when [ngOnInit] runs, and replayed at every subscription of
      [pageChange$].
    - [debounce]: the value [debounceTime] holds back and the clock reading
      at its arrival ([lastValue], [lastTime]); [Some] exactly while the
      operator has a task scheduled.
    - [previous]: the last value [distinctUntilChanged] let through.
    - [inflight]: the request the inner [switchMap] is subscribed to. *)
Record Pipeline := mkPipeline
  { startPage : Z;
    debounce : option (string * Z);
    previous : option string;
    inflight : option nat }.

(** ** The component (lines 50-68)

    [searchControl] and [pageControl] hold the value of the form control,
    [totalItems], [characters] and [state] the value of the signal;
    [characters] is [None] when the signal holds [undefined].
    [subscriptions] is [Some] while [loadData$] is subscribed.
    [requests] counts the calls of [http.get] so far and names them.
    [closed] is the flag of [this.subscriptions], the container that
    [ngOnDestroy] unsubscribes. *)
Record Component := mkComponent
  { searchControl : string;
    pageControl : Z;
    totalItems : Z;
    characters : option (list Character.t);
    state : CharacterState;
    subscriptions : option Pipeline;
    requests : nat;
    closed : bool }.

Definition API_URL : string := "https://rickandmortyapi.com/api/character".

(** The component as its field initialisers leave it. *)
Definition constructor : Component :=
  {| searchControl := "";
     pageControl := 1;
     totalItems := 0;
     characters := Some [];
     state := LOADING;
     subscriptions := None;
     requests := 0;
     closed := false |}.

(** ** Effects and actions *)

(** What a callback does to the outside, in order: a request sent, a value
    leaving [debounceTime], a value leaving [distinctUntilChanged], a call
    of [pageControl.setValue], a call of [console.error], and an exception
    escaping the subscriber. *)
Inductive effect :=
| HttpGet (rid : nat) (url : string) (params : HttpParams)
| DebounceOut (v : string)
| ReadyToFetch (v : string)
| PageControlSet (v : Z) (emitEvent : bool)
| ConsoleError (err : HttpErrorResponse.t)
| UncaughtTypeError.

(** A callback: it updates the component and lists its effects. *)
Definition Act (A : Type) : Type := Component → A * Component * list effect.

Definition ret {A} (x : A) : Act A := λ c, (x, c, []).

Definition bind {A B} (m : Act A) (f : A → Act B) : Act B :=
  λ c, let '(x, c1, e1) := m c in
       let '(y, c2, e2) := f x c1 in
       (y, c2, e1 ++ e2).

Declare Scope act_scope.
Delimit Scope act_scope with act.
Notation "x <- m ;; k" := (bind m (λ x, k))
  (at level 100, m at next level, k at level 200, right associativity) : act_scope.
Notation "m ;; k" := (bind m (λ _, k))
  (at level 100, k at level 200, right associativity) : act_scope.

Definition get : Act Component := λ c, (c, c, []).
Definition modify (f : Component → Component) : Act unit := λ c, (tt, f c, []).
Definition emit (e : effect) : Act unit := λ c, (tt, c, [e]).
Definition skip : Act unit := ret tt.

(** Signal and control writes. *)
Definition state_set (s : CharacterState) : Act unit :=
  modify (λ c, {| searchControl := searchControl c; pageControl := pageControl c;
                  totalItems := totalItems c; characters := characters c;
                  state := s;
                  subscriptions := subscriptions c; requests := requests c;
                  closed := closed c |}).

Definition characters_set (v : option (list Character.t)) : Act unit :=
  modify (λ c, {| searchControl := searchControl c; pageControl := pageControl c;
                  totalItems := totalItems c; characters := v;
                  state := state c;
                  subscriptions := subscriptions c; requests := requests c;
                  closed := closed c |}).

Definition totalItems_set (n : Z) : Act unit :=
  modify (λ c, {| searchControl := searchControl c; pageControl := pageControl c;
                  totalItems := n; characters := characters c;
                  state := state c;
                  subscriptions := subscriptions c; requests := requests c;
                  closed := closed c |}).

Definition searchControl_write (v : string) : Act unit :=
  modify (λ c, {| searchControl := v; pageControl := pageControl c;
                  totalItems := totalItems c; characters := characters c;
                  state := state c;
                  subscriptions := subscriptions c; requests := requests c;
                  closed := closed c |}).

Definition pageControl_write (v : Z) : Act unit :=
  modify (λ c, {| searchControl := searchControl c; pageControl := v;
                  totalItems := totalItems c; characters := characters c;
                  state := state c;
                  subscriptions := subscriptions c; requests := requests c;
                  closed := closed c |}).

Definition subscriptions_write (s : option Pipeline) : Act unit :=
  modify (λ c, {| searchControl := searchControl c; pageControl := pageControl c;
                  totalItems := totalItems c; characters := characters c;
                  state := state c;
                  subscriptions := s; requests := requests c;
                  closed := closed c |}).

Definition closed_write (b : bool) : Act unit :=
  modify (λ c, {| searchControl := searchControl c; pageControl := pageControl c;
                  totalItems := totalItems c; characters := characters c;
                  state := state c;
                  subscriptions := subscriptions c; requests := requests c;
                  closed := b |}).

(** Update of the operator state; nothing happens once unsubscribed. *)
Definition pipeline_update (f : Pipeline → Pipeline) : Act unit :=
  (c <- get ;; subscriptions_write (f <$> subscriptions c))%act.

Definition debounce_write (d : option (string * Z)) : Act unit :=
  pipeline_update (λ p, {| startPage := startPage p; debounce := d;
                           previous := previous p; inflight := inflight p |}).

Definition previous_write (v : option string) : Act unit :=
  pipeline_update (λ p, {| startPage := startPage p; debounce := debounce p;
                           previous := v; inflight := inflight p |}).

Definition inflight_write (r : option nat) : Act unit :=
  pipeline_update (λ p, {| startPage := startPage p; debounce := debounce p;
                           previous := previous p; inflight := r |}).

(** ** The HTTP client *)

(** Subscribing to [http.get(url, { params })] sends the request; the
    result names it. *)
Definition http_get (url : string) (params : HttpParams) : Act nat :=
  λ c, (requests c,
        {| searchControl := searchControl c; pageControl := pageControl c;
           totalItems := totalItems c; characters := characters c;
           state := state c; subscriptions := subscriptions c;
           requests := S (requests c); closed := closed c |},
        [HttpGet (requests c) url params]).

(** ** [fetchCharacters] (lines 148-163) *)

(** The handler given to [catchError]: a 404 is thrown again, any other
    error is turned into a value of the stream. *)
Definition catchError_handler (err : HttpErrorResponse.t) : Notification :=
  if decide (HttpErrorResponse.status err = 404) then Error err
  else Next (ErrorObject err).

(** What the observable returned by [fetchCharacters] delivers for an
    outcome of the request. *)
Definition fetchCharacters_delivers (o : Outcome) : Notification :=
  match o with
  | Success r => Next (Payload r)
  | Failure err => catchError_handler err
  end.

Definition fetchCharacters (params : HttpParams) : Act nat :=
  http_get API_URL params.

(** ** [ngOnInit] (lines 70-145) *)

(** The function given to the inner [switchMap] (lines 109-118), followed by
    the operator subscribing to the observable the function returns, which
    replaces the subscription to the previous one. *)
Definition load (page : Z) : Act unit :=
  (state_set LOADING ;;
   characters_set (Some []) ;;
   c <- get ;;
   let params :=
     HttpParams_set "name" (searchControl c)
       (HttpParams_set "page" (Number_toString page) ∅) in
   rid <- fetchCharacters params ;;
   inflight_write (Some rid))%act.

(** The function given to the outer [switchMap] (line 103): the previous
    subscription to [pageChange$] and the request under it are dropped, and
    [pageChange$] is subscribed again; its [startWith] emits at once. *)
Definition resubscribe_pageChange : Act unit :=
  (c <- get ;;
   match subscriptions c with
   | Some p => inflight_write None ;; load (startPage p)
   | None => skip
   end)%act.

(** [pageControl.setValue(v, { emitEvent })]: with [emitEvent], the value is
    emitted on [valueChanges], whose only subscriber is the inner
    [switchMap]. *)
Definition pageControl_setValue (v : Z) (emitEvent : bool) : Act unit :=
  (pageControl_write v ;;
   emit (PageControlSet v emitEvent) ;;
   c <- get ;;
   match subscriptions c with
   | Some _ => if emitEvent then load v else skip
   | None => skip
   end)%act.

(** The function given to [tap] (lines 85-92). *)
Definition tap_resetPage : Act unit :=
  (c <- get ;;
   if decide (pageControl c ≠ 1) then pageControl_setValue 1 false else skip)%act.

(** [distinctUntilChanged] and what follows it in [searchChange$] and
    [loadData$]. *)
Definition distinctUntilChanged (p : Pipeline) (v : string) : Act unit :=
  (if decide (previous p = Some v) then skip
   else
     previous_write (Some v) ;;
     emit (ReadyToFetch v) ;;
     tap_resetPage ;;
     resubscribe_pageChange)%act.

(** [debounceTime(200)]. *)
Definition dueTime : Z := 200.

(** A value arrives: it replaces the one held back, and the clock is read. *)
Definition debounceTime_next (v : string) (now : Z) : Act unit :=
  debounce_write (Some (v, now)).

(** The scheduled task runs: if the last value is younger than [dueTime] the
    task is scheduled again, otherwise the value is emitted. *)
Definition debounceTime_emitWhenIdle (now : Z) : Act unit :=
  (c <- get ;;
   match subscriptions c with
   | Some p =>
       match debounce p with
       | Some (v, lastTime) =>
           if decide (now < lastTime + dueTime) then skip
           else
             debounce_write None ;;
             emit (DebounceOut v) ;;
             distinctUntilChanged p v
       | None => skip
       end
   | None => skip
   end)%act.

(** [searchControl.setValue(v)] by the search box: the value is emitted on
    [valueChanges], whose only subscriber is [debounceTime]. *)
Definition searchControl_setValue (v : string) (now : Z) : Act unit :=
  (searchControl_write v ;; debounceTime_next v now)%act.

(** The subscriber's [next] callback (lines 125-129).  Reading [count] of an
    undefined [info] throws; RxJS reports an exception of the callback
    without closing the subscription. *)
Definition subscriber_next (response : Emission) : Act unit :=
  (characters_set (get_results response) ;;
   match get_info response with
   | Some i => totalItems_set (Info.count i) ;; state_set LOADED
   | None => emit UncaughtTypeError
   end)%act.

(** The subscriber's [error] callback (lines 130-142). *)
Definition subscriber_error (err : HttpErrorResponse.t) : Act unit :=
  (emit (ConsoleError err) ;;
   characters_set (Some []) ;;
   totalItems_set 0 ;;
   if decide (HttpErrorResponse.status err = 404)
   then state_set NO_DATA_FOUND
   else state_set ERROR)%act.

(** The request [rid] ends with outcome [o].  Only the request the inner
    [switchMap] is subscribed to is listened to.  A value is followed by the
    completion of the request; an error closes the whole subscription. *)
Definition http_resolve (rid : nat) (o : Outcome) : Act unit :=
  (c <- get ;;
   match subscriptions c with
   | Some p =>
       if decide (inflight p = Some rid) then
         match fetchCharacters_delivers o with
         | Next v => subscriber_next v ;; inflight_write None
         | Error err => subscriber_error err ;; subscriptions_write None
         end
       else skip
   | None => skip
   end)%act.

(** [ngOnInit]: the operators are created, [loadData$] is subscribed, and the
    [startWith] of [searchChange$] (line 95) emits at once into the outer
    [switchMap].  The subscription is then handed to
    [this.subscriptions.add] (line 123), which keeps it, or unsubscribes it
    at once when [this.subscriptions] is closed already. *)
Definition ngOnInit : Act unit :=
  (c <- get ;;
   subscriptions_write
     (Some {| startPage := pageControl c; debounce := None;
              previous := None; inflight := None |}) ;;
   resubscribe_pageChange ;;
   c' <- get ;;
   if closed c' then subscriptions_write None else skip)%act.

(** [ngOnDestroy] (lines 166-168): [this.subscriptions.unsubscribe()] closes
    the container and unsubscribes what it holds. *)
Definition ngOnDestroy : Act unit :=
  (closed_write true ;; subscriptions_write None)%act.

(** ** The component as a state machine *)

Inductive event :=
| SearchInput (now : Z) (text : string)
| DebounceTimer (now : Z)
| PageChange (page : Z)
| Resolve (rid : nat) (o : Outcome)
| Destroy.

Definition handle (e : event) : Act unit :=
  match e with
  | SearchInput now text => searchControl_setValue text now
  | DebounceTimer now => debounceTime_emitWhenIdle now
  | PageChange page => pageControl_setValue page true
  | Resolve rid o => http_resolve rid o
  | Destroy => ngOnDestroy
  end.

(** One transition: the component after the callback, and its effects. *)
Definition step (e : event) (c : Component) : Component * list effect :=
  let '(_, c', effs) := handle e c in (c', effs).

(** The component after [ngOnInit], and the effects of [ngOnInit]. *)
Definition init : Component * list effect :=
  let '(_, c, effs) := ngOnInit constructor in (c, effs).

(** The component after a sequence of events, with all effects so far. *)
Fixpoint run_from (c : Component) (log : list effect) (tr : list event)
  : Component * list effect :=
  match tr with
  | [] => (c, log)
  | e :: tr' => let '(c', effs) := step e c in run_from c' (log ++ effs) tr'
  end.

Definition run (tr : list event) : Component * list effect :=
  run_from init.1 init.2 tr.

(** The requests among some effects. *)
Definition fetches (effs : list effect) : list (nat * HttpParams) :=
  omap (λ e, match e with HttpGet rid _ params => Some (rid, params) | _ => None end) effs.

(** The store the template reads. *)
Definition store (c : Component) : CharacterState * option (list Character.t) * Z :=
  (state c, characters c, totalItems c).

(** ** Observations and invariants *)

(** An edit of the search box, as opposed to any other event. *)
Definition is_search_input (e : event) : bool :=
  match e with SearchInput _ _ => true | _ => false end.

(** The values that left [debounceTime], oldest first. *)
Definition debounce_outs (log : list effect) : list string :=
  omap (λ e, match e with DebounceOut v => Some v | _ => None end) log.

(** Every subscription of [pageChange$] replays page 1, the value that
    [startWith] read from the fresh [pageControl]. *)
Definition starts_at_one (c : Component) : Prop :=
  ∀ p, subscriptions c = Some p → startPage p = 1.

(** [floor k c]: the counter of [c] and the request listened to in [c], if
    any, are at least [k]. *)
Definition floor (k : nat) (c : Component) : Prop :=
  (k ≤ requests c)%nat ∧
  ∀ p r, subscriptions c = Some p → inflight p = Some r → (k ≤ r)%nat.

(** What the store can show together with the subscription: a request is
    listened to only in the loading state and with the records emptied; in
    the loaded state the records are an array and no request is listened
    to; the no-data state comes with emptied records, a zero total and a
    closed subscription; the error state does not occur. *)
Definition store_consistent (c : Component) : Prop :=
  match state c with
  | LOADING =>
      ∀ p r, subscriptions c = Some p → inflight p = Some r →
             characters c = Some []
  | LOADED =>
      is_Some (characters c) ∧
      ∀ p, subscriptions c = Some p → inflight p = None
  | NO_DATA_FOUND =>
      characters c = Some [] ∧ totalItems c = 0 ∧ subscriptions c = None
  | ERROR => False
  end.

(** The text [debounceTime] holds back is the text the search control
    holds. *)
Definition held_text_is_current (c : Component) : Prop :=
  ∀ p v t0, subscriptions c = Some p → debounce p = Some (v, t0) →
            searchControl c = v.

(** ** Sample data *)

Definition rick : Character.t :=
  Character.make 1 "Rick Sanchez" "Alive" "Human" "Male".

Definition first_page : ApiResponse.t :=
  ApiResponse.make (Info.make 826 42 (Some "?page=2") None) [rick].

Definition not_found : HttpErrorResponse.t := HttpErrorResponse.make 404.
Definition server_error : HttpErrorResponse.t := HttpErrorResponse.make 500.

(** The operator state right after [ngOnInit]. *)
Definition first_pipeline : Pipeline :=
  {| startPage := 1; debounce := None; previous := None; inflight := Some 0%nat |}.

(** ** Evaluating callbacks *)

Ltac act_unfold :=
  cbv [step handle searchControl_setValue debounceTime_next
       debounceTime_emitWhenIdle distinctUntilChanged tap_resetPage
       pageControl_setValue resubscribe_pageChange load fetchCharacters
       http_get http_resolve fetchCharacters_delivers catchError_handler
       subscriber_next subscriber_error ngOnInit ngOnDestroy
       debounce_write previous_write inflight_write pipeline_update
       subscriptions_write closed_write pageControl_write searchControl_write
       totalItems_set characters_set state_set
       bind ret get modify emit skip store] in *;
  cbn [fst snd fmap option_fmap option_map app
       searchControl pageControl totalItems characters state subscriptions
       requests closed startPage debounce previous inflight get_results
       get_info] in *.

Ltac act_cases :=
  act_unfold;
  repeat (first
    [ case_match
    | case_decide
    | match goal with
      | |- context [fmap _ (subscriptions ?c)] =>
          destruct (subscriptions c) eqn:?
      | H : context [fmap _ (subscriptions ?c)] |- _ =>
          destruct (subscriptions c) eqn:?
      end ];
    simplify_eq; act_unfold).

(** Case analysis over a membership in a list of effects. *)
Ltac elem_cases H :=
  repeat (apply elem_of_cons in H as [H|H]; simplify_eq);
  try (by apply elem_of_nil in H).

(** ** Runs *)

Example init_fetch :
  init = ({| searchControl := ""; pageControl := 1; totalItems := 0;
             characters := Some []; state := LOADING;
             subscriptions := Some {| startPage := 1; debounce := None;
                                      previous := None; inflight := Some 0%nat |};
             requests := 1; closed := false |},
          [HttpGet 0 API_URL {[ "page" := "1"; "name" := "" ]}]).
Proof. vm_compute. reflexivity. Qed.

(** Case analysis over every branch a callback can take. *)


Lemma run_from_app c log tr1 tr2 :
  run_from c log (tr1 ++ tr2)
  = run_from (run_from c log tr1).1 (run_from c log tr1).2 tr2.
Proof.
  revert c log. induction tr1 as [|e tr1 IH]; intros c log; [done|].
  cbn [app run_from]. destruct (step e c) as [c' effs]. apply IH.
Qed.

Lemma run_snoc tr e :
  run (tr ++ [e])
  = ((step e (run tr).1).1, (run tr).2 ++ (step e (run tr).1).2).
Proof.
  unfold run. rewrite run_from_app. cbn [run_from].
  by destruct (step e _).
Qed.

Lemma run_from_log c log tr :
  run_from c log tr = ((run_from c [] tr).1, log ++ (run_from c [] tr).2).
Proof.
  revert c log. induction tr as [|e tr IH]; intros c log; cbn [run_from].
  - by rewrite app_nil_r.
  - destruct (step e c) as [c' effs]. rewrite (IH c' (log ++ effs)).
    rewrite (IH c' ([] ++ effs)). cbn [fst snd app]. by rewrite app_assoc.
Qed.

Lemma run_app tr1 tr2 :
  (run (tr1 ++ tr2)).1 = (run_from (run tr1).1 [] tr2).1.
Proof. unfold run. rewrite run_from_app. by rewrite run_from_log. Qed.

(** A property of the initial component that every transition preserves
    holds after every run. *)
Lemma run_invariant (P : Component → Prop) :
  P init.1 → (∀ e c, P c → P (step e c).1) → ∀ tr, P (run tr).1.
Proof.
  intros Hinit Hstep tr. induction tr as [|e tr IH] using rev_ind; [done|].
  rewrite run_snoc. by apply Hstep.
Qed.

Lemma run_from_invariant (P : Component → Prop) :
  (∀ e c, P c → P (step e c).1) →
  ∀ tr c log, P c → P (run_from c log tr).1.
Proof.
  intros Hstep tr. induction tr as [|e tr IH]; intros c log Hc; [done|].
  cbn [run_from]. specialize (Hstep e c Hc). destruct (step e c) as [c' effs].
  by apply IH.
Qed.

(** ** Decimal numerals *)

(** The reader of numerals accepts the decimal numeral of an integer and
    nothing else: no exponent, no leading zero, no sign on zero. *)
Example decimal_value_examples :
  decimal_value "42" = Some 42 ∧ decimal_value "-7" = Some (-7) ∧
  decimal_value "0" = Some 0 ∧ decimal_value "007" = None ∧
  decimal_value "-0" = None ∧ decimal_value "1e+21" = None ∧
  decimal_value "" = None ∧ decimal_value "4 2" = None.
Proof. vm_compute. done. Qed.

Lemma digit_value_pretty_N_char (d : N) :
  (d < 10)%N → digit_value (pretty_N_char d) = Some (Z.of_N d).
Proof.
  intros Hd.
  assert (Forall (λ i : nat, digit_value (pretty_N_char (N.of_nat i))
                             = Some (Z.of_N (N.of_nat i))) (seq 0 10))
    as Hall by (repeat constructor).
  rewrite Forall_forall in Hall.
  rewrite <-(N2Nat.id d). apply Hall, elem_of_seq. lia.
Qed.

(** The digits [pretty_N_go] puts in front of [s] are worth [x]. *)
Lemma digits_value_pretty_N_go (x : N) :
  ∃ k, 0 ≤ k ∧
       ∀ s a, digits_value a (pretty_N_go x s)
              = digits_value (a * 10 ^ k + Z.of_N x) s.
Proof.
  induction (N.lt_wf_0 x) as [x _ IH].
  destruct (decide (x = 0%N)) as [->|Hx].
  - exists 0. split; [done|]. intros s a. rewrite pretty_N_go_0. f_equal. lia.
  - destruct (IH (x `div` 10)%N) as (k & Hk & IHk).
    { apply N.div_lt; lia. }
    exists (k + 1). split; [lia|]. intros s a.
    rewrite pretty_N_go_step by lia. rewrite IHk. cbn [digits_value].
    rewrite digit_value_pretty_N_char by (apply N.mod_lt; lia).
    f_equal. rewrite Z.pow_add_r by lia.
    pose proof (N.div_mod x 10 ltac:(lia)) as Hdm.
    apply (f_equal Z.of_N) in Hdm.
    rewrite N2Z.inj_add, N2Z.inj_mul in Hdm. lia.
Qed.

(** The numeral of a positive number starts with a digit other than 0. *)
Lemma pretty_N_go_head (x : N) s :
  (0 < x)%N →
  ∃ a t, pretty_N_go x s = String a t ∧ a ≠ "0"%char ∧ a ≠ "-"%char.
Proof.
  revert s. induction (N.lt_wf_0 x) as [x _ IH]. intros s Hx.
  rewrite pretty_N_go_step by done.
  destruct (decide (x `div` 10 = 0)%N) as [Hd|Hd].
  - rewrite Hd, pretty_N_go_0. eexists _, _. split; [done|].
    assert (x < 10)%N as Hlt by (apply N.div_small_iff in Hd; lia).
    rewrite N.mod_small by done.
    pose proof (digit_value_pretty_N_char x Hlt) as Hdigit.
    split; intros Heq; rewrite Heq in Hdigit.
    + change (digit_value "0") with (Some 0) in Hdigit. simplify_eq. lia.
    + change (digit_value "-") with (@None Z) in Hdigit. done.
  - apply IH; [by apply N.div_lt | by apply N.neq_0_lt_0].
Qed.

Lemma decimal_value_pretty_positive (p : positive) :
  ∃ a t, pretty (Npos p) = String a t ∧ a ≠ "0"%char ∧ a ≠ "-"%char ∧
         digits_value 0 (String a t) = Some (Zpos p).
Proof.
  unfold pretty, pretty_N. rewrite decide_False by done.
  destruct (pretty_N_go_head (Npos p) "") as (a & t & Heq & H0 & Hm); [lia|].
  exists a, t. split_and!; try done. rewrite <-Heq.
  destruct (digits_value_pretty_N_go (Npos p)) as (k & _ & Hk).
  rewrite Hk. cbn. f_equal.
Qed.

(** [pretty] on an integer gives its decimal numeral. *)
Lemma decimal_value_pretty (n : Z) : decimal_value (pretty n) = Some n.
Proof.
  destruct n as [|p|p]; [done|..].
  - change (pretty (Zpos p)) with (pretty (Npos p)).
    destruct (decimal_value_pretty_positive p) as (a & t & -> & H0 & Hm & Hv).
    unfold decimal_value. by rewrite !decide_False by done.
  - change (pretty (Zneg p)) with ("-" +:+ pretty (Npos p)).
    destruct (decimal_value_pretty_positive p) as (a & t & -> & H0 & Hm & Hv).
    change ("-" +:+ String a t) with (String "-" (String a t)).
    unfold decimal_value. rewrite decide_True by done.
    rewrite decide_False by done. by rewrite Hv.
Qed.

(** On a safe integer [Number_toString] gives the decimal numeral. *)
Lemma Number_toString_safe (n : Z) :
  is_safe_integer n → Number_toString n = pretty n.
Proof.
  unfold is_safe_integer. intros Hn.
  destruct n as [|p|p]; [done|..]; unfold Number_toString, Number_toString_pos.
  - by rewrite (proj2 (Z.ltb_lt _ _)) by lia.
  - by rewrite (proj2 (Z.ltb_lt _ _)) by lia.
Qed.

(** ** Invariants *)

Lemma starts_at_one_step e c : starts_at_one c → starts_at_one (step e c).1.
Proof.
  unfold starts_at_one. intros Hc p.
  destruct e; act_cases; intros; simplify_eq; cbn; eauto.
Qed.

Lemma starts_at_one_run tr : starts_at_one (run tr).1.
Proof.
  apply run_invariant; [|intros; by apply starts_at_one_step].
  intros p Hp. vm_compute in Hp. by simplify_eq.
Qed.

(** Requests are named in the order they are sent: a transition that sends
    one names it with the counter, advances the counter, and leaves the
    inner [switchMap] subscribed to it. *)
Lemma step_fetches e c rid q :
  (rid, q) ∈ fetches (step e c).2 →
  rid = requests c ∧ requests (step e c).1 = S (requests c) ∧
  ∃ p, subscriptions (step e c).1 = Some p ∧ inflight p = Some rid.
Proof.
  destruct e; act_cases; cbn; intros Hin;
    repeat (apply elem_of_cons in Hin as [Hin|Hin]; simplify_eq);
    try (by apply elem_of_nil in Hin); eauto.
Qed.

Lemma step_requests e c : (requests c ≤ requests (step e c).1)%nat.
Proof. destruct e; act_cases; lia. Qed.

(** The requests of a run are all below the counter. *)
Lemma run_fetches_below tr rid q :
  (rid, q) ∈ fetches (run tr).2 → (rid < requests (run tr).1)%nat.
Proof.
  revert rid q. induction tr as [|e tr IH] using rev_ind; intros rid q.
  - vm_compute. intros Hin. apply elem_of_cons in Hin as [Hin|Hin];
      [simplify_eq; lia | by apply elem_of_nil in Hin].
  - rewrite run_snoc. cbn [fst snd]. unfold fetches. rewrite omap_app.
    intros [Hin|Hin]%elem_of_app.
    + apply IH in Hin. pose proof (step_requests e (run tr).1). lia.
    + apply step_fetches in Hin as (-> & -> & _). lia.
Qed.

Lemma floor_step k e c : floor k c → floor k (step e c).1.
Proof.
  intros [Hk Hc]. split; [pose proof (step_requests e c); lia|].
  destruct e; act_cases; intros; simplify_eq; cbn in *; simplify_eq;
    eauto; try lia.
Qed.

(** A resolution of a request other than the one listened to changes
    nothing. *)
Lemma resolve_stale c rid o :
  (∀ p, subscriptions c = Some p → inflight p ≠ Some rid) →
  step (Resolve rid o) c = (c, []).
Proof.
  intros H. act_unfold. destruct (subscriptions c) as [p|] eqn:Hs; [|done].
  specialize (H p eq_refl). by case_decide.
Qed.


(** *** [debounceTime] *)

Lemma step_search_input_debounce now text c p :
  subscriptions (step (SearchInput now text) c).1 = Some p →
  debounce p = Some (text, now).
Proof. act_cases; intros; by simplify_eq/=. Qed.

Lemma step_other_debounce e c p d :
  is_search_input e = false →
  subscriptions (step e c).1 = Some p → debounce p = Some d →
  ∃ p0, subscriptions c = Some p0 ∧ debounce p0 = Some d.
Proof.
  destruct e; [done|..]; intros _; act_cases; intros; simplify_eq;
    cbn in *; simplify_eq; eauto.
Qed.

(** The value [debounceTime] holds back is the last edit of the search box,
    with the clock reading of that edit. *)
Lemma debounce_is_last_input tr p v t0 :
  subscriptions (run tr).1 = Some p → debounce p = Some (v, t0) →
  ∃ pre mid, tr = pre ++ SearchInput t0 v :: mid ∧
             Forall (λ e, is_search_input e = false) mid.
Proof.
  revert p. induction tr as [|e tr IH] using rev_ind; intros p.
  - vm_compute. intros; simplify_eq.
  - rewrite run_snoc. cbn [fst]. intros Hs Hd.
    destruct (is_search_input e) eqn:He.
    + destruct e; try done.
      apply step_search_input_debounce in Hs. simplify_eq.
      exists tr, []. split; [done|constructor].
    + destruct (step_other_debounce _ _ _ _ He Hs Hd) as (p0 & Hs0 & Hd0).
      destruct (IH p0 Hs0 Hd0) as (pre & mid & -> & Hmid).
      exists pre, (mid ++ [e]). split; [by rewrite <-app_assoc|].
      apply Forall_app; split; [done|]. by constructor.
Qed.

(** *** [distinctUntilChanged] *)

Lemma step_previous e c p :
  subscriptions (step e c).1 = Some p →
  ∃ p0, subscriptions c = Some p0 ∧
        previous p = match last (debounce_outs (step e c).2) with
                     | Some v => Some v
                     | None => previous p0
                     end.
Proof.
  destruct e; act_cases; intros; simplify_eq; cbn in *; simplify_eq; eauto.
Qed.

(** [distinctUntilChanged] remembers the value that left [debounceTime]
    last. *)
Lemma previous_is_last_out tr p :
  subscriptions (run tr).1 = Some p →
  previous p = last (debounce_outs (run tr).2).
Proof.
  revert p. induction tr as [|e tr IH] using rev_ind; intros p.
  - vm_compute. intros; by simplify_eq.
  - rewrite run_snoc. cbn [fst snd]. intros Hs.
    apply step_previous in Hs as (p0 & Hs0 & ->).
    unfold debounce_outs at 2. rewrite omap_app, last_app.
    fold (debounce_outs (step e (run tr).1).2).
    destruct (last (debounce_outs (step e (run tr).1).2)); [done|].
    by apply IH.
Qed.

(** *** What a transition that emits has seen *)

Lemma step_debounce_out e c v :
  DebounceOut v ∈ (step e c).2 →
  ∃ now p t0, e = DebounceTimer now ∧ subscriptions c = Some p ∧
              debounce p = Some (v, t0) ∧ t0 + dueTime ≤ now.
Proof.
  destruct e; act_cases; intros Hin; elem_cases Hin;
    eexists _, _, _; repeat split; eauto; lia.
Qed.

Lemma step_ready_to_fetch e c v :
  ReadyToFetch v ∈ (step e c).2 → DebounceOut v ∈ (step e c).2.
Proof.
  destruct e; act_cases; intros Hin; elem_cases Hin; apply elem_of_cons; eauto.
Qed.

Lemma step_console_error e c err :
  ConsoleError err ∈ (step e c).2 → subscriptions (step e c).1 = None.
Proof. destruct e; act_cases; intros Hin; by elem_cases Hin. Qed.

(** Once unsubscribed, a transition sends nothing, leaves the store alone
    and does not subscribe again. *)
Lemma step_unsubscribed e c :
  subscriptions c = None →
  subscriptions (step e c).1 = None ∧ fetches (step e c).2 = [] ∧
  store (step e c).1 = store c.
Proof. intros Hs. destruct e; act_cases; cbn; done. Qed.

Lemma run_unsubscribed tr c :
  subscriptions c = None →
  fetches (run_from c [] tr).2 = [] ∧ store (run_from c [] tr).1 = store c.
Proof.
  revert c. induction tr as [|e tr IH]; intros c Hs; [done|].
  cbn [run_from]. destruct (step_unsubscribed e c Hs) as (Hs' & Hf & Hst).
  destruct (step e c) as [c' effs]. cbn [fst snd] in *.
  rewrite run_from_log. cbn [fst snd app]. unfold fetches in *.
  rewrite omap_app, Hf. destruct (IH c' Hs') as [-> ->]. done.
Qed.

(** *** The text held back *)

Lemma held_text_is_current_step e c :
  held_text_is_current c → held_text_is_current (step e c).1.
Proof.
  unfold held_text_is_current. intros Hc.
  destruct e; act_cases; intros; simplify_eq/=; eauto.
Qed.

Lemma held_text_is_current_run tr : held_text_is_current (run tr).1.
Proof.
  apply run_invariant; [|intros; by apply held_text_is_current_step].
  intros p v t0 Hs Hd. vm_compute in Hs. by simplify_eq.
Qed.

(** ** Outcomes of a request *)

(** C7: a success payload of the request the pipeline listens to replaces
    the records and the total count with the payload's and sets the state to
    [LOADED], in one transition that has no other effect. *)
Theorem success_replaces_result_set c p rid r :
  subscriptions c = Some p → inflight p = Some rid →
  store (step (Resolve rid (Success r)) c).1
  = (LOADED, Some (ApiResponse.results r), Info.count (ApiResponse.info r)) ∧
  (step (Resolve rid (Success r)) c).2 = [].
Proof.
  intros Hs Hi. act_unfold. rewrite Hs. by case_decide.
Qed.

Lemma success_replaces_result_set_witness :
  subscriptions init.1 = Some first_pipeline ∧
  inflight first_pipeline = Some 0%nat ∧
  store (step (Resolve 0 (Success first_page)) init.1).1
  = (LOADED, Some [rick], 826) ∧
  (step (Resolve 0 (Success first_page)) init.1).2 = [].
Proof.
  split; [reflexivity|]. split; [reflexivity|].
  apply (success_replaces_result_set init.1 first_pipeline 0 first_page);
    reflexivity.
Defined.

(** C6: a 404 failure of the request the pipeline listens to empties the
    records, sets the total count to 0 and sets the state to
    [NO_DATA_FOUND]. *)
Theorem not_found_clears_result_set c p rid err :
  subscriptions c = Some p → inflight p = Some rid →
  HttpErrorResponse.status err = 404 →
  store (step (Resolve rid (Failure err)) c).1 = (NO_DATA_FOUND, Some [], 0).
Proof.
  intros Hs Hi He. act_unfold. rewrite Hs.
  case_decide; [|done]. rewrite !decide_True by done. done.
Qed.

Lemma not_found_clears_result_set_witness :
  subscriptions init.1 = Some first_pipeline ∧
  inflight first_pipeline = Some 0%nat ∧
  HttpErrorResponse.status not_found = 404 ∧
  store (step (Resolve 0 (Failure not_found)) init.1).1
  = (NO_DATA_FOUND, Some [], 0).
Proof.
  split; [reflexivity|]. split; [reflexivity|]. split; [reflexivity|].
  apply (not_found_clears_result_set init.1 first_pipeline 0 not_found);
    reflexivity.
Defined.

(** A failure other than 404 is re-emitted as a value and reaches the [next]
    callback: the records become [undefined], the callback throws at
    [response.info.count], and the state and the total count stay as they
    were.  The [else] branch of the [error] callback is not reached. *)
Lemma other_failure_reaches_next c p rid err :
  subscriptions c = Some p → inflight p = Some rid →
  HttpErrorResponse.status err ≠ 404 →
  store (step (Resolve rid (Failure err)) c).1 = (state c, None, totalItems c) ∧
  (step (Resolve rid (Failure err)) c).2 = [UncaughtTypeError].
Proof.
  intros Hs Hi He. act_unfold. rewrite Hs.
  case_decide; [|done]. rewrite !decide_False by done. done.
Qed.

(** C1, at a status 500 answer to the first request: the state stays
    [LOADING] instead of becoming [ERROR], and the records are [undefined]
    instead of empty. *)
Theorem server_error_leaves_loading :
  store (step (Resolve 0 (Failure server_error)) init.1).1 = (LOADING, None, 0) ∧
  (step (Resolve 0 (Failure server_error)) init.1).2 = [UncaughtTypeError] ∧
  state (step (Resolve 0 (Failure server_error)) init.1).1 ≠ ERROR.
Proof.
  destruct (other_failure_reaches_next init.1 first_pipeline 0 server_error)
    as [Hst Heff]; [reflexivity..|done|].
  split; [exact Hst|]. split; [exact Heff|].
  vm_compute. discriminate.
Qed.

(** ** The beginning of a request *)

(** C2, as amended: [ngOnInit] and every transition that sends a request
    leave the state [LOADING] and the records empty; the total count is the
    one from before. *)
Theorem fetch_begin_keeps_total :
  store init.1 = (LOADING, Some [], totalItems constructor) ∧
  ∀ e c rid q,
    (rid, q) ∈ fetches (step e c).2 →
    store (step e c).1 = (LOADING, Some [], totalItems c).
Proof.
  split; [reflexivity|]. intros e c rid q.
  destruct e; act_cases; cbn; intros Hin; elem_cases Hin; done.
Qed.

Lemma fetch_begin_keeps_total_witness :
  (1%nat, ({[ "page" := "2"; "name" := "" ]} : HttpParams))
    ∈ fetches (step (PageChange 2) (run [Resolve 0 (Success first_page)]).1).2 ∧
  store (step (PageChange 2) (run [Resolve 0 (Success first_page)]).1).1
  = (LOADING, Some [], 826).
Proof.
  assert ((1%nat, ({[ "page" := "2"; "name" := "" ]} : HttpParams))
    ∈ fetches (step (PageChange 2) (run [Resolve 0 (Success first_page)]).1).2)
    as Hin by (vm_compute; apply list_elem_of_here).
  split; [exact Hin|].
  exact (proj2 fetch_begin_keeps_total _ _ _ _ Hin).
Defined.

(** C2 fails as stated: after the first page has loaded with a total of 826,
    selecting page 2 sends a request and the total count is still 826. *)
Lemma fetch_begin_total_not_cleared :
  fetches (step (PageChange 2) (run [Resolve 0 (Success first_page)]).1).2
  = [(1%nat, {[ "page" := "2"; "name" := "" ]})] ∧
  state (step (PageChange 2) (run [Resolve 0 (Success first_page)]).1).1
  = LOADING ∧
  characters (step (PageChange 2) (run [Resolve 0 (Success first_page)]).1).1
  = Some [] ∧
  totalItems (step (PageChange 2) (run [Resolve 0 (Success first_page)]).1).1
  = 826 ∧
  totalItems (step (PageChange 2) (run [Resolve 0 (Success first_page)]).1).1
  ≠ 0.
Proof. vm_compute. repeat split; discriminate. Qed.

(** ** The end of the pipeline *)

(** C3: after a transition that ran the [error] callback, no sequence of
    events sends a request or changes the store. *)
Theorem error_callback_ends_pipeline e c err :
  ConsoleError err ∈ (step e c).2 →
  ∀ tr, fetches (run_from (step e c).1 [] tr).2 = [] ∧
        store (run_from (step e c).1 [] tr).1 = store (step e c).1.
Proof.
  intros Hin tr. apply run_unsubscribed. by eapply step_console_error.
Qed.

Lemma error_callback_ends_pipeline_witness :
  ConsoleError not_found ∈ (step (Resolve 0 (Failure not_found)) init.1).2 ∧
  fetches (run_from (step (Resolve 0 (Failure not_found)) init.1).1 []
             [SearchInput 1000 "morty"; DebounceTimer 1200; PageChange 2]).2 = [] ∧
  store (run_from (step (Resolve 0 (Failure not_found)) init.1).1 []
             [SearchInput 1000 "morty"; DebounceTimer 1200; PageChange 2]).1
  = (NO_DATA_FOUND, Some [], 0).
Proof.
  assert (ConsoleError not_found
            ∈ (step (Resolve 0 (Failure not_found)) init.1).2) as Hin
    by (vm_compute; apply list_elem_of_here).
  split; [exact Hin|].
  exact (error_callback_ends_pipeline _ _ _ Hin
           [SearchInput 1000 "morty"; DebounceTimer 1200; PageChange 2]).
Defined.

(** ** Superseded requests *)

(** C4: when a run has sent a request [r1] and a later transition sends a
    request [r2], the pipeline listens to [r2] after that transition, and at
    any later moment a resolution of [r1], of either kind, changes nothing
    and has no effect. *)
Theorem superseded_resolution_discarded tr1 e2 tr3 r1 q1 r2 q2 o :
  (r1, q1) ∈ fetches (run tr1).2 →
  (r2, q2) ∈ fetches (step e2 (run tr1).1).2 →
  (∃ p, subscriptions (run (tr1 ++ [e2])).1 = Some p ∧ inflight p = Some r2) ∧
  step (Resolve r1 o) (run (tr1 ++ e2 :: tr3)).1
  = ((run (tr1 ++ e2 :: tr3)).1, []).
Proof.
  intros H1 H2. apply run_fetches_below in H1.
  apply step_fetches in H2 as (-> & Hreq & p & Hs & Hi).
  split; [rewrite run_snoc; eauto|].
  assert (floor (requests (run tr1).1) (step e2 (run tr1).1).1) as Hfloor.
  { split; [lia|]. intros p' r' Hs' Hi'. simplify_eq. lia. }
  assert (floor (requests (run tr1).1) (run (tr1 ++ e2 :: tr3)).1) as [_ Hc].
  { rewrite (run_app tr1 (e2 :: tr3)). cbn [run_from].
    destruct (step e2 (run tr1).1) as [c2 effs2]. cbn [fst] in *.
    apply (run_from_invariant (floor _)); [|done].
    intros; by apply floor_step. }
  apply resolve_stale. intros p' Hs' Hi'.
  specialize (Hc p' r1 Hs' Hi'). lia.
Qed.

Lemma superseded_resolution_discarded_witness :
  (0%nat, ({[ "page" := "1"; "name" := "" ]} : HttpParams)) ∈ fetches (run []).2 ∧
  (1%nat, ({[ "page" := "2"; "name" := "" ]} : HttpParams))
    ∈ fetches (step (PageChange 2) (run []).1).2 ∧
  (∃ p, subscriptions (run ([] ++ [PageChange 2])).1 = Some p ∧
        inflight p = Some 1%nat) ∧
  step (Resolve 0 (Success first_page)) (run ([] ++ PageChange 2 :: [])).1
  = ((run ([] ++ PageChange 2 :: [])).1, []).
Proof.
  assert ((0%nat, ({[ "page" := "1"; "name" := "" ]} : HttpParams))
            ∈ fetches (run []).2) as H1
    by (vm_compute; apply list_elem_of_here).
  assert ((1%nat, ({[ "page" := "2"; "name" := "" ]} : HttpParams))
            ∈ fetches (step (PageChange 2) (run []).1).2) as H2
    by (vm_compute; apply list_elem_of_here).
  split; [exact H1|]. split; [exact H2|].
  exact (superseded_resolution_discarded [] (PageChange 2) [] 0%nat _ 1%nat _
           (Success first_page) H1 H2).
Defined.

(** ** Search emissions *)

(** C5: a transition in which a search term leaves [distinctUntilChanged]
    does the following and nothing else.  The term has left [debounceTime];
    if the page is not 1, [pageControl.setValue] is called once, with 1 and
    without [emitEvent], and if it is 1 the control is not written; then one
    request is sent, for page 1.  The page is 1 afterwards. *)
Theorem search_emission_fetches_page_one tr e v :
  ReadyToFetch v ∈ (step e (run tr).1).2 →
  pageControl (step e (run tr).1).1 = 1 ∧
  ∃ rid,
    (step e (run tr).1).2
    = [DebounceOut v; ReadyToFetch v]
      ++ (if decide (pageControl (run tr).1 = 1) then []
          else [PageControlSet 1 false])
      ++ [HttpGet rid API_URL
            (HttpParams_set "name" (searchControl (run tr).1)
               (HttpParams_set "page" "1" ∅))].
Proof.
  pose proof (starts_at_one_run tr) as Hone. unfold starts_at_one in Hone.
  destruct e; act_cases; intros Hin; elem_cases Hin;
    (split; [cbn; done|]); eexists;
    rewrite (Hone _ eq_refl); reflexivity.
Qed.

Lemma search_emission_fetches_page_one_witness :
  ReadyToFetch "morty"
    ∈ (step (DebounceTimer 1200)
         (run [PageChange 3; SearchInput 1000 "morty"]).1).2 ∧
  pageControl (step (DebounceTimer 1200)
                 (run [PageChange 3; SearchInput 1000 "morty"]).1).1 = 1 ∧
  ∃ rid,
    (step (DebounceTimer 1200)
       (run [PageChange 3; SearchInput 1000 "morty"]).1).2
    = [DebounceOut "morty"; ReadyToFetch "morty"]
      ++ (if decide (pageControl
                       (run [PageChange 3; SearchInput 1000 "morty"]).1 = 1)
          then [] else [PageControlSet 1 false])
      ++ [HttpGet rid API_URL
            (HttpParams_set "name"
               (searchControl (run [PageChange 3; SearchInput 1000 "morty"]).1)
               (HttpParams_set "page" "1" ∅))].
Proof.
  assert (ReadyToFetch "morty"
            ∈ (step (DebounceTimer 1200)
                 (run [PageChange 3; SearchInput 1000 "morty"]).1).2) as Hin
    by (vm_compute; apply list_elem_of_further, list_elem_of_here).
  split; [exact Hin|].
  exact (search_emission_fetches_page_one
           [PageChange 3; SearchInput 1000 "morty"] (DebounceTimer 1200)
           "morty" Hin).
Defined.

(** ** Request parameters *)

(** C8, as amended: the request of [ngOnInit] and the request of every
    transition of a run carry the parameters [page] and [name] and no other;
    [page] is what [Number.prototype.toString] gives for the page the
    control holds when the request is sent, which is the decimal numeral of
    the page whenever the page is a safe integer, and [name] is the text the
    search control holds then, the empty string when there is no filter. *)
Theorem request_parameters_rendered :
  fetches init.2 = [(0%nat, {[ "page" := "1"; "name" := "" ]})] ∧
  ∀ tr e rid q,
    (rid, q) ∈ fetches (step e (run tr).1).2 →
    q !! "page" = Some (Number_toString (pageControl (step e (run tr).1).1)) ∧
    q !! "name" = Some (searchControl (step e (run tr).1).1) ∧
    dom q = {[ "page"; "name" ]} ∧
    (is_safe_integer (pageControl (step e (run tr).1).1) →
     ∃ s, q !! "page" = Some s ∧
          decimal_value s = Some (pageControl (step e (run tr).1).1)).
Proof.
  split; [vm_compute; reflexivity|]. intros tr e rid q Hin.
  assert (q !! "page"
          = Some (Number_toString (pageControl (step e (run tr).1).1)) ∧
          q !! "name" = Some (searchControl (step e (run tr).1).1) ∧
          dom q = {[ "page"; "name" ]}) as (Hpage & Hname & Hdom).
  { pose proof (starts_at_one_run tr) as Hone. unfold starts_at_one in Hone.
    assert (∀ a b : string,
      let m := HttpParams_set "name" b (HttpParams_set "page" a ∅) in
      m !! "page" = Some a ∧ m !! "name" = Some b ∧
      dom m = {[ "page"; "name" ]}) as Hparams.
    { intros a b. unfold HttpParams_set. split; [|split].
      - by rewrite lookup_insert_ne, lookup_insert_eq.
      - by rewrite lookup_insert_eq.
      - rewrite !dom_insert_L, dom_empty_L. set_solver. }
    revert Hin.
    destruct e; act_cases; cbn; intros Hin; elem_cases Hin;
      try rewrite (Hone _ eq_refl); cbn [startPage];
      try (replace (pageControl (run tr).1) with 1 by lia); apply Hparams. }
  split_and!; try done. intros Hsafe.
  exists (Number_toString (pageControl (step e (run tr).1).1)).
  split; [done|]. rewrite Number_toString_safe by done.
  apply decimal_value_pretty.
Qed.

Lemma request_parameters_rendered_witness :
  (2%nat, ({[ "page" := "1"; "name" := "morty" ]} : HttpParams))
    ∈ fetches (step (DebounceTimer 1200)
                 (run [PageChange 3; SearchInput 1000 "morty"]).1).2 ∧
  is_safe_integer
    (pageControl (step (DebounceTimer 1200)
                    (run [PageChange 3; SearchInput 1000 "morty"]).1).1) ∧
  ({[ "page" := "1"; "name" := "morty" ]} : HttpParams) !! "name"
  = Some (searchControl
            (step (DebounceTimer 1200)
               (run [PageChange 3; SearchInput 1000 "morty"]).1).1) ∧
  dom ({[ "page" := "1"; "name" := "morty" ]} : HttpParams)
  = {[ "page"; "name" ]} ∧
  ∃ s, ({[ "page" := "1"; "name" := "morty" ]} : HttpParams) !! "page" = Some s ∧
       decimal_value s
       = Some (pageControl
                 (step (DebounceTimer 1200)
                    (run [PageChange 3; SearchInput 1000 "morty"]).1).1).
Proof.
  assert ((2%nat, ({[ "page" := "1"; "name" := "morty" ]} : HttpParams))
    ∈ fetches (step (DebounceTimer 1200)
                 (run [PageChange 3; SearchInput 1000 "morty"]).1).2) as Hin
    by (vm_compute; apply list_elem_of_here).
  assert (is_safe_integer
    (pageControl (step (DebounceTimer 1200)
                    (run [PageChange 3; SearchInput 1000 "morty"]).1).1))
    as Hsafe by (vm_compute; split; discriminate).
  split; [exact Hin|]. split; [exact Hsafe|].
  destruct (proj2 request_parameters_rendered
              [PageChange 3; SearchInput 1000 "morty"] (DebounceTimer 1200)
              2%nat _ Hin) as (_ & Hname & Hdom & Hdec).
  split; [exact Hname|]. split; [exact Hdom|]. exact (Hdec Hsafe).
Defined.

(** C8 fails as stated: a page of 10^21 is sent as [1e+21], which is not
    the decimal numeral of the page. *)
Lemma request_page_not_decimal :
  fetches (step (PageChange 1000000000000000000000) init.1).2
  = [(1%nat, {[ "page" := "1e+21"; "name" := "" ]})] ∧
  pageControl (step (PageChange 1000000000000000000000) init.1).1
  = 1000000000000000000000 ∧
  decimal_value "1e+21" = None ∧
  decimal_value "1000000000000000000000" = Some 1000000000000000000000.
Proof. vm_compute. done. Qed.

(** Numbers as JavaScript prints them: decimal numerals up to [2^53]; above,
    the shortest digits that identify the double, padded with zeros below
    [10^21] and in exponent notation from there on. *)
Example Number_toString_examples :
  Number_toString 1 = "1" ∧ Number_toString 42 = "42" ∧
  Number_toString 0 = "0" ∧ Number_toString (-7) = "-7" ∧
  Number_toString 9007199254740991 = "9007199254740991" ∧
  Number_toString 9007199254740993 = "9007199254740992" ∧
  Number_toString (2 ^ 60) = "1152921504606847000" ∧
  Number_toString 999999999999999868928 = "999999999999999900000" ∧
  Number_toString (10 ^ 21) = "1e+21" ∧
  Number_toString (2 ^ 70) = "1.1805916207174113e+21" ∧
  Number_toString 99999999999999991611392 = "1e+23" ∧
  Number_toString (- 10 ^ 21) = "-1e+21" ∧
  Number_toString (2 ^ 1024) = "Infinity".
Proof. vm_compute. done. Qed.

(** ** Debounce and duplicates *)

(** C9, as amended: an edit of the search box sends no request and leaves
    the store alone; when a transition of a run lets a search term out of
    [debounceTime] or out of [distinctUntilChanged], the transition is the
    debounce task, the term is the last edit of the search box, and the
    clock at that edit was at least 200ms behind the clock of the task; and
    a request of a run is sent either by such a transition, with that term
    as [name], or by a page change, with the text the search control holds
    at that moment as [name], settled or not. *)
Theorem settled_term_or_page_change :
  (∀ c now text,
     (step (SearchInput now text) c).2 = [] ∧
     store (step (SearchInput now text) c).1 = store c) ∧
  (∀ tr e v,
     DebounceOut v ∈ (step e (run tr).1).2 ∨
     ReadyToFetch v ∈ (step e (run tr).1).2 →
     ∃ now pre t0 mid,
       e = DebounceTimer now ∧
       tr = pre ++ SearchInput t0 v :: mid ∧
       Forall (λ e', is_search_input e' = false) mid ∧
       t0 + 200 ≤ now) ∧
  (∀ tr e rid q,
     (rid, q) ∈ fetches (step e (run tr).1).2 →
     (∃ page, e = PageChange page ∧
              q !! "name" = Some (searchControl (run tr).1)) ∨
     (∃ now v, e = DebounceTimer now ∧
               ReadyToFetch v ∈ (step e (run tr).1).2 ∧
               q !! "name" = Some v)).
Proof.
  split; [intros c now text; by act_cases|]. split.
  - intros tr e v Hout.
    assert (DebounceOut v ∈ (step e (run tr).1).2) as Hin
      by (destruct Hout; [done|by apply step_ready_to_fetch]).
    apply step_debounce_out in Hin as (now & p & t0 & -> & Hs & Hd & Ht).
    destruct (debounce_is_last_input tr p v t0 Hs Hd)
      as (pre & mid & -> & Hmid).
    by exists now, pre, t0, mid.
  - intros tr e rid q.
    pose proof (held_text_is_current_run tr) as Hheld.
    unfold held_text_is_current in Hheld.
    destruct e; act_cases; cbn; intros Hin; elem_cases Hin;
      unfold HttpParams_set; rewrite lookup_insert_eq.
    all: try (left; eexists; split; [reflexivity|]; reflexivity).
    all: match goal with
         | H : debounce _ = Some (?v, _) |- _ =>
             right; exists now, v; split; [reflexivity|];
             split; [set_solver|]; f_equal; eauto
         end.
Qed.

Lemma settled_term_or_page_change_witness :
  (DebounceOut "ri"
     ∈ (step (DebounceTimer 250)
          (run [SearchInput 0 "r"; SearchInput 50 "ri"; DebounceTimer 200]).1).2 ∨
   ReadyToFetch "ri"
     ∈ (step (DebounceTimer 250)
          (run [SearchInput 0 "r"; SearchInput 50 "ri"; DebounceTimer 200]).1).2) ∧
  (∃ now pre t0 mid,
    DebounceTimer 250 = DebounceTimer now ∧
    [SearchInput 0 "r"; SearchInput 50 "ri"; DebounceTimer 200]
    = pre ++ SearchInput t0 "ri" :: mid ∧
    Forall (λ e', is_search_input e' = false) mid ∧
    t0 + 200 ≤ now) ∧
  (1%nat, ({[ "page" := "2"; "name" := "r" ]} : HttpParams))
    ∈ fetches (step (PageChange 2) (run [SearchInput 0 "r"]).1).2 ∧
  ((∃ page, PageChange 2 = PageChange page ∧
            ({[ "page" := "2"; "name" := "r" ]} : HttpParams) !! "name"
            = Some (searchControl (run [SearchInput 0 "r"]).1)) ∨
   (∃ now v, PageChange 2 = DebounceTimer now ∧
             ReadyToFetch v
               ∈ (step (PageChange 2) (run [SearchInput 0 "r"]).1).2 ∧
             ({[ "page" := "2"; "name" := "r" ]} : HttpParams) !! "name"
             = Some v)).
Proof.
  assert (DebounceOut "ri"
     ∈ (step (DebounceTimer 250)
          (run [SearchInput 0 "r"; SearchInput 50 "ri"; DebounceTimer 200]).1).2 ∨
   ReadyToFetch "ri"
     ∈ (step (DebounceTimer 250)
          (run [SearchInput 0 "r"; SearchInput 50 "ri"; DebounceTimer 200]).1).2)
    as Hout by (left; vm_compute; apply list_elem_of_here).
  assert ((1%nat, ({[ "page" := "2"; "name" := "r" ]} : HttpParams))
    ∈ fetches (step (PageChange 2) (run [SearchInput 0 "r"]).1).2) as Hin
    by (vm_compute; apply list_elem_of_here).
  split; [exact Hout|]. split.
  - exact (proj1 (proj2 settled_term_or_page_change)
             [SearchInput 0 "r"; SearchInput 50 "ri"; DebounceTimer 200]
             (DebounceTimer 250) "ri" Hout).
  - split; [exact Hin|].
    exact (proj2 (proj2 settled_term_or_page_change)
             [SearchInput 0 "r"] (PageChange 2) 1%nat _ Hin).
Defined.

(** C9 fails as stated: the text "r" is replaced by "ri" 50ms after it was
    typed and never leaves [debounceTime], yet the page change in between
    sends a request with "r" as [name]. *)
Lemma unsettled_text_sent_on_page_change :
  fetches (run [SearchInput 0 "r"; PageChange 2; SearchInput 50 "ri";
                DebounceTimer 250]).2
  = [(0%nat, {[ "page" := "1"; "name" := "" ]});
     (1%nat, {[ "page" := "2"; "name" := "r" ]});
     (2%nat, {[ "page" := "1"; "name" := "ri" ]})] ∧
  debounce_outs (run [SearchInput 0 "r"; PageChange 2; SearchInput 50 "ri";
                      DebounceTimer 250]).2
  = ["ri"].
Proof. vm_compute. done. Qed.

(** A burst of two edits: the task that runs at 200 finds the last edit
    only 150ms old and emits nothing; the intermediate text never leaves
    [debounceTime]. *)
Example burst_emits_last_value_only :
  (run [SearchInput 0 "r"; SearchInput 50 "ri"; DebounceTimer 200;
        DebounceTimer 250]).2
  = [HttpGet 0 API_URL {[ "page" := "1"; "name" := "" ]};
     DebounceOut "ri"; ReadyToFetch "ri";
     HttpGet 1 API_URL {[ "page" := "1"; "name" := "ri" ]}].
Proof. vm_compute. reflexivity. Qed.

(** A page selected during the debounce window sends the text the search
    control holds at that moment; the request is the page change's, the edit
    itself has sent nothing. *)
Example page_change_during_burst :
  (run [SearchInput 0 "r"; PageChange 2]).2
  = [HttpGet 0 API_URL {[ "page" := "1"; "name" := "" ]};
     PageControlSet 2 true;
     HttpGet 1 API_URL {[ "page" := "2"; "name" := "r" ]}].
Proof. vm_compute. reflexivity. Qed.

(** C10: when a transition of a run lets out of [debounceTime] the term that
    left it last, the term goes no further: the transition has no other
    effect, so it sends no request, and it leaves the store and the page
    alone. *)
Theorem repeated_term_suppressed tr e v :
  DebounceOut v ∈ (step e (run tr).1).2 →
  last (debounce_outs (run tr).2) = Some v →
  (step e (run tr).1).2 = [DebounceOut v] ∧
  fetches (step e (run tr).1).2 = [] ∧
  store (step e (run tr).1).1 = store (run tr).1 ∧
  pageControl (step e (run tr).1).1 = pageControl (run tr).1.
Proof.
  intros Hin Hlast.
  pose proof (previous_is_last_out tr) as Hprev. rewrite Hlast in Hprev.
  destruct e; revert Hin; act_cases; intros Hin; elem_cases Hin;
    try done; by specialize (Hprev _ eq_refl).
Qed.

Lemma repeated_term_suppressed_witness :
  DebounceOut "rick"
    ∈ (step (DebounceTimer 900)
         (run [SearchInput 0 "rick"; DebounceTimer 200;
               SearchInput 600 "ricky"; SearchInput 700 "rick"]).1).2 ∧
  last (debounce_outs
          (run [SearchInput 0 "rick"; DebounceTimer 200;
                SearchInput 600 "ricky"; SearchInput 700 "rick"]).2)
  = Some "rick" ∧
  (step (DebounceTimer 900)
     (run [SearchInput 0 "rick"; DebounceTimer 200;
           SearchInput 600 "ricky"; SearchInput 700 "rick"]).1).2
  = [DebounceOut "rick"] ∧
  fetches (step (DebounceTimer 900)
     (run [SearchInput 0 "rick"; DebounceTimer 200;
           SearchInput 600 "ricky"; SearchInput 700 "rick"]).1).2 = [] ∧
  store (step (DebounceTimer 900)
     (run [SearchInput 0 "rick"; DebounceTimer 200;
           SearchInput 600 "ricky"; SearchInput 700 "rick"]).1).1
  = store (run [SearchInput 0 "rick"; DebounceTimer 200;
                SearchInput 600 "ricky"; SearchInput 700 "rick"]).1 ∧
  pageControl (step (DebounceTimer 900)
     (run [SearchInput 0 "rick"; DebounceTimer 200;
           SearchInput 600 "ricky"; SearchInput 700 "rick"]).1).1
  = pageControl (run [SearchInput 0 "rick"; DebounceTimer 200;
                      SearchInput 600 "ricky"; SearchInput 700 "rick"]).1.
Proof.
  assert (DebounceOut "rick"
    ∈ (step (DebounceTimer 900)
         (run [SearchInput 0 "rick"; DebounceTimer 200;
               SearchInput 600 "ricky"; SearchInput 700 "rick"]).1).2) as Hin
    by (vm_compute; apply list_elem_of_here).
  assert (last (debounce_outs
          (run [SearchInput 0 "rick"; DebounceTimer 200;
                SearchInput 600 "ricky"; SearchInput 700 "rick"]).2)
          = Some "rick") as Hlast by (vm_compute; reflexivity).
  split; [exact Hin|]. split; [exact Hlast|].
  exact (repeated_term_suppressed _ (DebounceTimer 900) "rick" Hin Hlast).
Defined.

(** ** Teardown *)

(** X1: after [ngOnDestroy], whatever the component was doing, no sequence
    of events sends a request or changes the store. *)
Theorem destroy_releases_pipeline c tr :
  fetches (run_from (step Destroy c).1 [] tr).2 = [] ∧
  store (run_from (step Destroy c).1 [] tr).1 = store c.
Proof.
  destruct (run_unsubscribed tr (step Destroy c).1) as [Hf Hst]; [done|].
  split; [exact Hf|]. by rewrite Hst.
Qed.

(** ** Consistency of the store *)

Lemma store_consistent_step e c :
  store_consistent c → store_consistent (step e c).1.
Proof.
  unfold store_consistent. intros Hc.
  destruct e; act_cases; cbn; try done; try congruence;
    intros; destruct_and?; simplify_eq/=; eauto;
    try (split_and?; eauto; intros; simplify_eq/=; eauto; done);
    match goal with
    | H : ∀ p, Some ?q = Some p → inflight p = None |- _ =>
        specialize (H _ eq_refl); congruence
    end.
Qed.

Lemma store_consistent_run tr : store_consistent (run tr).1.
Proof.
  apply run_invariant; [|intros; by apply store_consistent_step].
  vm_compute. intros; by simplify_eq.
Qed.

(** X2: in every run, while the pipeline listens to a request the state is
    [LOADING] and the records are the empty array. *)
Theorem listening_means_loading tr p r :
  subscriptions (run tr).1 = Some p → inflight p = Some r →
  state (run tr).1 = LOADING ∧ characters (run tr).1 = Some [].
Proof.
  intros Hs Hi. pose proof (store_consistent_run tr) as Hc.
  unfold store_consistent in Hc. destruct (state (run tr).1).
  - eauto.
  - destruct Hc as [_ Hc]. specialize (Hc p Hs). congruence.
  - destruct Hc as (_ & _ & Hc). congruence.
  - done.
Qed.

Lemma listening_means_loading_witness :
  subscriptions (run [Resolve 0 (Success first_page); PageChange 2]).1
  = Some {| startPage := 1; debounce := None; previous := None;
            inflight := Some 1%nat |} ∧
  state (run [Resolve 0 (Success first_page); PageChange 2]).1 = LOADING ∧
  characters (run [Resolve 0 (Success first_page); PageChange 2]).1 = Some [].
Proof.
  split; [reflexivity|].
  apply (listening_means_loading
           [Resolve 0 (Success first_page); PageChange 2]
           {| startPage := 1; debounce := None; previous := None;
              inflight := Some 1%nat |} 1%nat); reflexivity.
Defined.

(** X3: no run ever shows the state [ERROR]; and whenever a run shows
    [LOADED], the records are an array. *)
Theorem error_state_unreachable tr :
  state (run tr).1 ≠ ERROR ∧
  (state (run tr).1 = LOADED → is_Some (characters (run tr).1)).
Proof.
  pose proof (store_consistent_run tr) as Hc.
  unfold store_consistent in Hc.
  destruct (state (run tr).1); split; try done; intros _; by destruct Hc.
Qed.

(** X4: the [error] callback runs only for a 404: a transition that calls
    [console.error] was given an error of status 404 and leaves the state
    [NO_DATA_FOUND] with the records emptied and a zero total. *)
Theorem error_callback_only_on_404 e c err :
  ConsoleError err ∈ (step e c).2 →
  HttpErrorResponse.status err = 404 ∧
  store (step e c).1 = (NO_DATA_FOUND, Some [], 0).
Proof. destruct e; act_cases; intros Hin; by elem_cases Hin. Qed.

Lemma error_callback_only_on_404_witness :
  ConsoleError not_found ∈ (step (Resolve 0 (Failure not_found)) init.1).2 ∧
  HttpErrorResponse.status not_found = 404 ∧
  store (step (Resolve 0 (Failure not_found)) init.1).1
  = (NO_DATA_FOUND, Some [], 0).
Proof.
  assert (ConsoleError not_found
            ∈ (step (Resolve 0 (Failure not_found)) init.1).2) as Hin
    by (vm_compute; apply list_elem_of_here).
  split; [exact Hin|].
  exact (error_callback_only_on_404 _ _ _ Hin).
Defined.

(** X5: [NO_DATA_FOUND] is final: once a run shows it, every continuation
    of the run sends no request and still shows [NO_DATA_FOUND] with empty
    records and a zero total. *)
Theorem no_data_found_is_final tr tr' :
  state (run tr).1 = NO_DATA_FOUND →
  fetches (run_from (run tr).1 [] tr').2 = [] ∧
  store (run (tr ++ tr')).1 = (NO_DATA_FOUND, Some [], 0).
Proof.
  intros Hst. pose proof (store_consistent_run tr) as Hc.
  unfold store_consistent in Hc. rewrite Hst in Hc.
  destruct Hc as (Hch & Htot & Hs).
  destruct (run_unsubscribed tr' _ Hs) as [Hf Hstore].
  split; [exact Hf|]. rewrite run_app, Hstore.
  unfold store. by rewrite Hst, Hch, Htot.
Qed.

Lemma no_data_found_is_final_witness :
  state (run [Resolve 0 (Failure not_found)]).1 = NO_DATA_FOUND ∧
  fetches (run_from (run [Resolve 0 (Failure not_found)]).1 []
             [SearchInput 1000 "morty"; DebounceTimer 1200; PageChange 2]).2
  = [] ∧
  store (run ([Resolve 0 (Failure not_found)]
              ++ [SearchInput 1000 "morty"; DebounceTimer 1200; PageChange 2])).1
  = (NO_DATA_FOUND, Some [], 0).
Proof.
  split; [reflexivity|].
  apply (no_data_found_is_final [Resolve 0 (Failure not_found)]
           [SearchInput 1000 "morty"; DebounceTimer 1200; PageChange 2]).
  reflexivity.
Defined.

(** ** The text of a search request *)

(** X6: the request sent when a search term leaves [distinctUntilChanged]
    is the only request of that transition and its [name] is that term,
    although the code reads the search control and not the emitted value. *)
Theorem search_request_carries_emitted_term tr e v :
  ReadyToFetch v ∈ (step e (run tr).1).2 →
  ∃ rid q, fetches (step e (run tr).1).2 = [(rid, q)] ∧ q !! "name" = Some v.
Proof.
  pose proof (held_text_is_current_run tr) as Hheld.
  unfold held_text_is_current in Hheld.
  destruct e; act_cases; intros Hin; elem_cases Hin; cbn;
    eexists _, _; (split; [reflexivity|]);
    unfold HttpParams_set; rewrite lookup_insert_eq; f_equal; eauto.
Qed.

Lemma search_request_carries_emitted_term_witness :
  ReadyToFetch "morty"
    ∈ (step (DebounceTimer 1200)
         (run [PageChange 3; SearchInput 1000 "morty"]).1).2 ∧
  ∃ rid q,
    fetches (step (DebounceTimer 1200)
               (run [PageChange 3; SearchInput 1000 "morty"]).1).2
    = [(rid, q)] ∧ q !! "name" = Some "morty".
Proof.
  assert (ReadyToFetch "morty"
            ∈ (step (DebounceTimer 1200)
                 (run [PageChange 3; SearchInput 1000 "morty"]).1).2) as Hin
    by (vm_compute; apply list_elem_of_further, list_elem_of_here).
  split; [exact Hin|].
  exact (search_request_carries_emitted_term
           [PageChange 3; SearchInput 1000 "morty"] (DebounceTimer 1200)
           "morty" Hin).
Defined.

(** X7: a term that leaves [debounceTime] and is not the term that left it
    last (in particular the first term to leave it, even when it is the text
    of the initial load) goes on: the ready-to-fetch signal is given and
    exactly one request is sent. *)
Theorem new_term_passes tr e v :
  DebounceOut v ∈ (step e (run tr).1).2 →
  last (debounce_outs (run tr).2) ≠ Some v →
  ReadyToFetch v ∈ (step e (run tr).1).2 ∧
  length (fetches (step e (run tr).1).2) = 1%nat.
Proof.
  intros Hin Hlast.
  pose proof (previous_is_last_out tr) as Hprev.
  destruct e; revert Hin; act_cases; intros Hin; elem_cases Hin; cbn;
    try (split; [set_solver|done]);
    by (specialize (Hprev _ eq_refl); congruence).
Qed.

Lemma new_term_passes_witness :
  DebounceOut ""
    ∈ (step (DebounceTimer 300)
         (run [SearchInput 0 "r"; SearchInput 100 ""]).1).2 ∧
  last (debounce_outs (run [SearchInput 0 "r"; SearchInput 100 ""]).2)
  ≠ Some "" ∧
  ReadyToFetch ""
    ∈ (step (DebounceTimer 300)
         (run [SearchInput 0 "r"; SearchInput 100 ""]).1).2 ∧
  length (fetches (step (DebounceTimer 300)
                     (run [SearchInput 0 "r"; SearchInput 100 ""]).1).2)
  = 1%nat.
Proof.
  assert (DebounceOut ""
            ∈ (step (DebounceTimer 300)
                 (run [SearchInput 0 "r"; SearchInput 100 ""]).1).2) as Hin
    by (vm_compute; apply list_elem_of_here).
  assert (last (debounce_outs (run [SearchInput 0 "r"; SearchInput 100 ""]).2)
          ≠ Some "") as Hlast by (vm_compute; discriminate).
  split; [exact Hin|]. split; [exact Hlast|].
  exact (new_term_passes [SearchInput 0 "r"; SearchInput 100 ""]
           (DebounceTimer 300) "" Hin Hlast).
Defined.

(** ** The debounce task *)

(** X8: on a subscribed component, after an edit of the search box at [t0]
    a run of the debounce task before [t0 + 200] changes nothing and has no
    effect, and a run at [t0 + 200] or later lets the text out of
    [debounceTime], after which a further run of the task has no effect. *)
Theorem debounce_task_timing c p t0 v now :
  subscriptions c = Some p →
  (now < t0 + 200 →
   step (DebounceTimer now) (step (SearchInput t0 v) c).1
   = ((step (SearchInput t0 v) c).1, [])) ∧
  (t0 + 200 ≤ now →
   DebounceOut v ∈ (step (DebounceTimer now) (step (SearchInput t0 v) c).1).2 ∧
   ∀ now',
     (step (DebounceTimer now')
        (step (DebounceTimer now) (step (SearchInput t0 v) c).1).1).2 = []).
Proof.
  intros Hs. unfold dueTime. split; intros Ht.
  - act_unfold. rewrite Hs. cbn. unfold dueTime. by rewrite decide_True by lia.
  - act_unfold. rewrite Hs. cbn. unfold dueTime. rewrite decide_False by lia.
    cbn. act_cases; cbn; (split; [apply list_elem_of_here|done]).
Qed.

Lemma debounce_task_timing_witness :
  subscriptions init.1 = Some first_pipeline ∧
  (150 < 0 + 200 →
   step (DebounceTimer 150) (step (SearchInput 0 "rick") init.1).1
   = ((step (SearchInput 0 "rick") init.1).1, [])) ∧
  (0 + 200 ≤ 200 →
   DebounceOut "rick"
     ∈ (step (DebounceTimer 200) (step (SearchInput 0 "rick") init.1).1).2 ∧
   ∀ now',
     (step (DebounceTimer now')
        (step (DebounceTimer 200) (step (SearchInput 0 "rick") init.1).1).1).2
     = []).
Proof.
  split; [reflexivity|]. split.
  - exact (proj1 (debounce_task_timing init.1 first_pipeline 0 "rick" 150
                    eq_refl)).
  - exact (proj2 (debounce_task_timing init.1 first_pipeline 0 "rick" 200
                    eq_refl)).
Defined.

(** ** After a failure other than 404 *)

(** X9: a failure other than 404 of the request listened to does not end
    the pipeline: the subscription stays, with no request listened to, and
    the next page change sends a request and shows [LOADING] with the
    records emptied again. *)
Theorem other_failure_keeps_pipeline c p rid err page :
  subscriptions c = Some p → inflight p = Some rid →
  HttpErrorResponse.status err ≠ 404 →
  (∃ p', subscriptions (step (Resolve rid (Failure err)) c).1 = Some p' ∧
         inflight p' = None) ∧
  (∃ q, fetches (step (PageChange page)
                   (step (Resolve rid (Failure err)) c).1).2
        = [(requests c, q)]) ∧
  store (step (PageChange page) (step (Resolve rid (Failure err)) c).1).1
  = (LOADING, Some [], totalItems c).
Proof.
  intros Hs Hi He. act_unfold. rewrite Hs. cbn.
  rewrite decide_True by done. rewrite decide_False by done. cbn.
  rewrite !Hs. cbn. split_and!; eauto.
Qed.

Lemma other_failure_keeps_pipeline_witness :
  subscriptions init.1 = Some first_pipeline ∧
  inflight first_pipeline = Some 0%nat ∧
  HttpErrorResponse.status server_error ≠ 404 ∧
  (∃ p', subscriptions (step (Resolve 0 (Failure server_error)) init.1).1
         = Some p' ∧ inflight p' = None) ∧
  (∃ q, fetches (step (PageChange 2)
                   (step (Resolve 0 (Failure server_error)) init.1).1).2
        = [(requests init.1, q)]) ∧
  store (step (PageChange 2)
           (step (Resolve 0 (Failure server_error)) init.1).1).1
  = (LOADING, Some [], totalItems init.1).
Proof.
  assert (HttpErrorResponse.status server_error ≠ 404) as Hne
    by (vm_compute; discriminate).
  split; [reflexivity|]. split; [reflexivity|]. split; [exact Hne|].
  exact (other_failure_keeps_pipeline init.1 first_pipeline 0 server_error 2
           eq_refl eq_refl Hne).
Defined.

(** ** What a transition can do *)

(** X10: no transition sends more than one request, and an edit of the
    search box, a resolution and the destruction send none. *)
Theorem at_most_one_request e c :
  (length (fetches (step e c).2) ≤ 1)%nat ∧
  match e with
  | SearchInput _ _ | Resolve _ _ | Destroy => fetches (step e c).2 = []
  | DebounceTimer _ | PageChange _ => True
  end.
Proof. destruct e; act_cases; cbn; split; done || lia. Qed.

(** X12: the total count changes only in a transition that resolves the
    request listened to. *)
Theorem total_changes_only_on_resolution e c :
  totalItems (step e c).1 ≠ totalItems c →
  ∃ rid o p, e = Resolve rid o ∧ subscriptions c = Some p ∧
             inflight p = Some rid.
Proof.
  destruct e; act_cases; cbn; intros Hne; try done;
    eexists _, _, _; split_and!; eauto.
Qed.

Lemma total_changes_only_on_resolution_witness :
  totalItems (step (Resolve 0 (Success first_page)) init.1).1
  ≠ totalItems init.1 ∧
  ∃ rid o p, Resolve 0 (Success first_page) = Resolve rid o ∧
             subscriptions init.1 = Some p ∧ inflight p = Some rid.
Proof.
  assert (totalItems (step (Resolve 0 (Success first_page)) init.1).1
          ≠ totalItems init.1) as Hne by (vm_compute; discriminate).
  split; [exact Hne|].
  exact (total_changes_only_on_resolution _ _ Hne).
Defined.

(** ** The first load *)

(** X11: [ngOnInit] on a component that is not subscribed and whose
    [this.subscriptions] is not closed sends one request at once, without
    any user action, for the page and the text the controls hold; it shows
    [LOADING] with the records emptied, leaves the controls and the total
    alone, and listens to that request. *)
Theorem ngOnInit_loads_at_once c :
  subscriptions c = None → closed c = false →
  (ngOnInit c).2
  = [HttpGet (requests c) API_URL
       (HttpParams_set "name" (searchControl c)
          (HttpParams_set "page" (Number_toString (pageControl c)) ∅))] ∧
  store (ngOnInit c).1.2 = (LOADING, Some [], totalItems c) ∧
  searchControl (ngOnInit c).1.2 = searchControl c ∧
  pageControl (ngOnInit c).1.2 = pageControl c ∧
  ∃ p, subscriptions (ngOnInit c).1.2 = Some p ∧
       inflight p = Some (requests c).
Proof.
  intros Hs Hc. act_unfold. rewrite Hc. cbn. split_and!; eauto.
Qed.

Lemma ngOnInit_loads_at_once_witness :
  subscriptions constructor = None ∧ closed constructor = false ∧
  (ngOnInit constructor).2
  = [HttpGet (requests constructor) API_URL
       (HttpParams_set "name" (searchControl constructor)
          (HttpParams_set "page" (Number_toString (pageControl constructor)) ∅))] ∧
  store (ngOnInit constructor).1.2 = (LOADING, Some [], totalItems constructor) ∧
  searchControl (ngOnInit constructor).1.2 = searchControl constructor ∧
  pageControl (ngOnInit constructor).1.2 = pageControl constructor ∧
  ∃ p, subscriptions (ngOnInit constructor).1.2 = Some p ∧
       inflight p = Some (requests constructor).
Proof.
  split; [reflexivity|]. split; [reflexivity|].
  exact (ngOnInit_loads_at_once constructor eq_refl eq_refl).
Defined.

(** On a destroyed component [ngOnInit] still sends the first request and
    shows [LOADING], but the subscription is unsubscribed at once: nothing
    is listened to. *)
Example ngOnInit_after_destroy :
  (ngOnInit (step Destroy constructor).1).2
  = [HttpGet 0 API_URL {[ "page" := "1"; "name" := "" ]}] ∧
  subscriptions (ngOnInit (step Destroy constructor).1).1.2 = None ∧
  state (ngOnInit (step Destroy constructor).1).1.2 = LOADING.
Proof. vm_compute. done. Qed.

(** ** A page change during the debounce window *)

(** X13: a page selected while a new search term is held back does not
    cancel the term: when the debounce task then runs on time, the page is
    set back to 1 and the request of the page change is no longer listened
    to, the request of the search being listened to instead. *)
Theorem pending_search_overrides_page_change c p v t0 page now :
  subscriptions c = Some p → debounce p = Some (v, t0) →
  previous p ≠ Some v → t0 + 200 ≤ now →
  fetches (step (PageChange page) c).2 ≠ [] ∧
  pageControl (step (DebounceTimer now) (step (PageChange page) c).1).1 = 1 ∧
  ∃ p', subscriptions (step (DebounceTimer now) (step (PageChange page) c).1).1
        = Some p' ∧
        inflight p' = Some (S (requests c)).
Proof.
  intros Hs Hd Hp Ht. act_unfold. rewrite Hs. cbn. rewrite Hd.
  unfold dueTime. rewrite decide_False by lia. cbn.
  rewrite decide_False by done. cbn.
  split; [done|]. case_decide; cbn; eauto.
Qed.

Lemma pending_search_overrides_page_change_witness :
  subscriptions (run [SearchInput 0 "rick"]).1
  = Some {| startPage := 1; debounce := Some ("rick", 0); previous := None;
            inflight := Some 0%nat |} ∧
  fetches (step (PageChange 3) (run [SearchInput 0 "rick"]).1).2 ≠ [] ∧
  pageControl (step (DebounceTimer 200)
                 (step (PageChange 3) (run [SearchInput 0 "rick"]).1).1).1 = 1 ∧
  ∃ p', subscriptions (step (DebounceTimer 200)
                         (step (PageChange 3) (run [SearchInput 0 "rick"]).1).1).1
        = Some p' ∧
        inflight p' = Some (S (requests (run [SearchInput 0 "rick"]).1)).
Proof.
  split; [reflexivity|].
  apply (pending_search_overrides_page_change (run [SearchInput 0 "rick"]).1
           {| startPage := 1; debounce := Some ("rick", 0); previous := None;
              inflight := Some 0%nat |} "rick" 0 3 200).
  - reflexivity.
  - reflexivity.
  - discriminate.
  - vm_compute. discriminate.
Defined.
